(** * The T gate bloq ([qualtran/bloqs/basic_gates/t_gate.py])

    A shallow embedding of [TGate], its matrix constant [_TMATRIX] and the
    example factory [_t_gate], followed by the properties of the bloq
    contract: signature, cost, adjoint, tensor embedding, translation to
    cirq and the two textual renderings. *)

From Stdlib Require Import Reals Lra.
From stdpp Require Import base option list strings gmap.

Local Open Scope string_scope.

(** ** complex128 numerics

    [np.complex128] values are idealised as exact complex numbers, a pair
    of reals (real part, imaginary part); rounding is not modelled.  Only
    the operations the module uses are defined. *)
Module Complex128.

Definition C : Type := (R * R)%type.

Definition RtoC (x : R) : C := (x, 0%R).

(** The Python literal [1.0j]. *)
Definition Ci : C := (0%R, 1%R).

Definition Cmult (a b : C) : C :=
  ((fst a * fst b - snd a * snd b)%R, (fst a * snd b + snd a * fst b)%R).

Definition Cdiv (a b : C) : C :=
  let d := (fst b * fst b + snd b * snd b)%R in
  (((fst a * fst b + snd a * snd b) / d)%R,
   ((snd a * fst b - fst a * snd b) / d)%R).

(** [np.exp] on a complex argument. *)
Definition Cexp (z : C) : C :=
  ((exp (fst z) * cos (snd z))%R, (exp (fst z) * sin (snd z))%R).

(** The scalar behind [ndarray.conj]. *)
Definition Cconj (z : C) : C := (fst z, (- snd z)%R).

(** A two-dimensional [ndarray], row by row. *)
Definition Matrix : Type := list (list C).

(** [ndarray.conj()]: conjugate every entry. *)
Definition conj (m : Matrix) : Matrix := map (map Cconj) m.

(** [ndarray.T] of a two-dimensional array: entry (i, j) becomes (j, i). *)
Fixpoint T (m : Matrix) : Matrix :=
  match m with
  | [] => []
  | [r] => map (fun x => [x]) r
  | r :: rs => zip_with cons r (T rs)
  end.

End Complex128.
Import Complex128.

(** [_TMATRIX = np.array([[1, 0], [0, np.exp(1.0j * np.pi / 4.0)]],
    dtype=np.complex128)] *)
Definition _TMATRIX : Matrix :=
  [ [RtoC 1; RtoC 0];
    [RtoC 0; Cexp (Cdiv (Cmult Ci (RtoC PI)) (RtoC 4))] ].

(** ** Exceptions raised along the modelled paths *)
Inductive exn : Type :=
| KeyError (key : string)   (* [d[key]] on a dict without [key] *)
| ValueError.               (* unpacking [(q,) = q] with the wrong length *)

(** ** The gate descriptor

    [@frozen class TGate(Bloq)] with the one attribute
    [is_adjoint: bool = False]. *)
Record TGate : Type := mkTGate { is_adjoint : bool }.

(** The [__init__] that attrs generates: the keyword is optional and
    defaults to [False]. *)
Definition TGate_init (is_adjoint : option bool) : TGate :=
  mkTGate (default false is_adjoint).

(** The [__eq__] that attrs generates: both are [TGate]s and the tuples of
    attributes agree. *)
Definition TGate_eq (x y : TGate) : bool :=
  Bool.eqb (is_adjoint x) (is_adjoint y).

(** [attrs.evolve(self, is_adjoint=v)]: a fresh instance built from the
    attributes of [self] with the given change. *)
Definition attrs_evolve (self : TGate) (v : bool) : TGate :=
  mkTGate v.

(** [TGate.adjoint] *)
Definition adjoint (self : TGate) : TGate :=
  attrs_evolve self (negb (is_adjoint self)).

(** [TGate.pretty_name] *)
Definition pretty_name (self : TGate) : string :=
  let maybe_dag := if is_adjoint self then "†" else "" in
  "T" ++ maybe_dag.

(** [TGate.__str__] *)
Definition __str__ (self : TGate) : string :=
  let maybe_dag := if is_adjoint self then "is_adjoint=True" else "" in
  "TGate(" ++ maybe_dag ++ ")".

(** Python's [sub in s] on strings, used to read the renderings. *)
Fixpoint contains (sub s : string) : bool :=
  String.prefix sub s ||
  match s with
  | EmptyString => false
  | String _ s' => contains sub s'
  end.

(** ** Port signature *)
Record Register : Type := mkRegister { name : string; bitsize : Z }.

Definition Signature : Type := list Register.

(** Modelled from the spec: [Signature.build] is defined elsewhere in
    qualtran.  It is the registry-building call that, given a mapping from
    register name to bit-width (the keyword arguments, in order), returns
    the signature with one register per entry. *)
Definition Signature_build (registers : list (string * Z)) : Signature :=
  map (fun kv => mkRegister (fst kv) (snd kv)) registers.

(** [TGate.signature] (a [cached_property]: the value of the first call is
    reused, and the body reads no state). *)
Definition signature (self : TGate) : Signature :=
  Signature_build [("q", 1%Z)].

(** ** Cost structure *)

(** Modelled from the spec: [TComplexity] is declared elsewhere in
    qualtran ([qualtran.cirq_interop.t_complexity_protocol]).  It is the
    record that counts occurrences of the expensive primitive, here the
    counter [t] that the source sets; counters that a constructor call
    does not pass keep the defaults of the class and are not modelled. *)
Record TComplexity : Type := mkTComplexity { t : Z }.

(** [TGate._t_complexity_] *)
Definition _t_complexity_ (self : TGate) : TComplexity :=
  mkTComplexity 1.

(** Modelled from the spec: [Bloq.short_name] is inherited from the base
    class, which is defined elsewhere in qualtran; the tensor is tagged
    with the gate's display name. *)
Definition short_name (self : TGate) : string := pretty_name self.

(** ** A state and exception monad for the code that mutates its argument *)
Definition M (St A : Type) : Type := St -> (exn + A) * St.

Definition ret {St A} (a : A) : M St A := fun s => (inr a, s).

Definition raise {St A} (e : exn) : M St A := fun s => (inl e, s).

Definition bind {St A B} (m : M St A) (k : A -> M St B) : M St B :=
  fun s =>
    match m s with
    | (inl e, s') => (inl e, s')
    | (inr a, s') => k a s'
    end.

Notation "x <~ m ;; k" := (bind m (fun x => k))
  (at level 100, m at next level, right associativity).

(** [d[key]] on a [dict] with string keys. *)
Definition getitem {St V} (d : gmap string V) (key : string) : M St V :=
  match d !! key with
  | Some v => ret v
  | None => raise (KeyError key)
  end.

(** ** Tensor embedding *)
Section TensorEmbedding.

(** Soquets and the caller's tag ([Any]) are opaque to the gate. *)
Context {SoquetT Tag : Type}.

(** [qtn.Tensor(data=..., inds=..., tags=...)]; the tag list holds the
    gate's own string and the caller's tag. *)
Record Tensor : Type := mkTensor {
  data : Matrix;
  inds : SoquetT * SoquetT;
  tags : list (string + Tag)
}.

(** [qtn.TensorNetwork], as the sequence of tensors added so far. *)
Definition TensorNetwork : Type := list Tensor.

(** [tn.add(tensor)] *)
Definition tn_add (tensor : Tensor) : M TensorNetwork unit :=
  fun tn => (inr tt, (tn ++ [tensor])%list).

(** [TGate.add_my_tensors].  The argument of [tn.add] is evaluated
    first, and in it the keywords from left to right: [outgoing['q']],
    then [incoming['q']], then the tags. *)
Definition add_my_tensors (self : TGate) (tag : Tag)
    (incoming outgoing : gmap string SoquetT) : M TensorNetwork unit :=
  let data := if is_adjoint self then T (conj _TMATRIX) else _TMATRIX in
  out_q <~ getitem outgoing "q" ;;
  in_q <~ getitem incoming "q" ;;
  tn_add (mkTensor data (out_q, in_q) [inl (short_name self); inr tag]).

End TensorEmbedding.

Arguments Tensor : clear implicits.
Arguments TensorNetwork : clear implicits.

(** ** Translation to cirq *)
Section Cirq.

(** Qubit handles and the qubit manager belong to the caller. *)
Context {Qid QubitManager : Type}.

(** [cirq.ZPowGate(exponent=e)], the family [cirq.T] belongs to. *)
Inductive cirq_Gate : Type :=
| ZPowGate (exponent : R).

(** [cirq.T], that is [ZPowGate(exponent=0.25)]. *)
Definition cirq_T : cirq_Gate := ZPowGate (1 / 4).

(** [cirq.inverse(g)], also written [g**-1]. *)
Definition cirq_inverse (g : cirq_Gate) : cirq_Gate :=
  match g with ZPowGate e => ZPowGate (- e) end.

(** [cirq.unitary(g)]: the matrix diag(1, exp(i pi e)). *)
Definition cirq_unitary (g : cirq_Gate) : Matrix :=
  match g with
  | ZPowGate e =>
      [ [RtoC 1; RtoC 0];
        [RtoC 0; Cexp (Cmult Ci (RtoC (PI * e)))] ]
  end.

(** A gate applied to qubits, [g(q)]. *)
Record cirq_Operation : Type := GateOperation {
  gate : cirq_Gate;
  qubits : list Qid
}.

(** [TGate.as_cirq_op].  [(q,) = q] unpacks a collection of exactly one
    handle and raises [ValueError] on any other length. *)
Definition as_cirq_op (self : TGate) (qubit_manager : QubitManager)
    (q : list Qid) : exn + (cirq_Operation * gmap string (list Qid)) :=
  match q with
  | [q] => inr (GateOperation cirq_T [q], {[ "q" := [q] ]})
  | _ => inl ValueError
  end.

End Cirq.

Arguments cirq_Operation : clear implicits.

(** ** Descriptors as objects

  Python values are references.  A store maps an address (the position
  in the list) to the attributes of the instance that lives there;
  [@frozen] instances reject assignment, so the only operation on the
  store is allocation. *)
Module Objects.

Definition store : Type := list TGate.

(** Instance creation: the new object gets an unused address. *)
Definition alloc (v : TGate) (h : store) : nat * store :=
  (length h, (h ++ [v])%list).

(** [self.adjoint()] on the instance at address [self]; [None] when the
    address is not allocated. *)
Definition adjoint (self : nat) (h : store) : option (nat * store) :=
  x ← h !! self; Some (alloc (adjoint x) h).

End Objects.

(** ** The registered example

  [@bloq_example def _t_gate()]: the factory behind the example. *)
Definition _t_gate : TGate :=
let t_gate := TGate_init None in
t_gate.

(** ** Wire symbol *)

(** Modelled from the spec: [TextBox] is declared elsewhere in qualtran
    ([qualtran.drawing]); it is the boxed-text wire symbol, holding the
    text it shows. *)
Record TextBox : Type := mkTextBox { text : string }.

(** [TGate.wire_symbol] *)
Definition wire_symbol {Soquet : Type} (self : TGate) (soq : Soquet) : TextBox :=
  mkTextBox (pretty_name self).

(** ** Matrix products

    The product of two-dimensional arrays ([a @ b]), used to read the
    matrices the gate puts into a network. *)
Definition Cplus (a b : C) : C :=
  ((fst a + fst b)%R, (snd a + snd b)%R).

(** The sum of the entrywise products of two rows. *)
Definition dot (u v : list C) : C :=
  foldr Cplus (RtoC 0) (zip_with Cmult u v).

(** Entry (i, j) is the product of row i of [a] with column j of [b]. *)
Definition matmul (a b : Matrix) : Matrix :=
  map (fun row => map (dot row) (T b)) a.

(** * Properties *)

(** ** Numerics *)

Example T_2x2 (a b c d : C) : T [ [a; b]; [c; d] ] = [ [a; c]; [b; d] ].
Proof. reflexivity. Qed.

Example T_2x3 (a b c d e f : C) :
  T [ [a; b; c]; [d; e; f] ] = [ [a; d]; [b; e]; [c; f] ].
Proof. reflexivity. Qed.

Lemma Cexp_imaginary (y : R) : Cexp (0%R, y) = (cos y, sin y).
Proof.
  unfold Cexp; simpl. rewrite exp_0. f_equal; lra.
Qed.

(** The argument of [np.exp] in [_TMATRIX] is the number i pi / 4. *)
Lemma TMATRIX_phase :
  Cdiv (Cmult Ci (RtoC PI)) (RtoC 4) = (0%R, (PI / 4)%R).
Proof.
  unfold Cdiv, Cmult, Ci, RtoC; simpl. f_equal; field.
Qed.

Lemma TMATRIX_value :
  _TMATRIX =
  [ [RtoC 1; RtoC 0];
    [RtoC 0; (cos (PI / 4), sin (PI / 4))] ].
Proof.
  unfold _TMATRIX. rewrite TMATRIX_phase, Cexp_imaginary. reflexivity.
Qed.

Lemma Cconj_RtoC (x : R) : Cconj (RtoC x) = RtoC x.
Proof.
  unfold Cconj, RtoC; simpl. f_equal; lra.
Qed.

(** Conjugation turns exp(i y) into exp(-i y). *)
Lemma Cconj_expi (y : R) : Cconj (cos y, sin y) = (cos (- y), sin (- y)).
Proof.
  unfold Cconj; simpl. rewrite cos_neg, sin_neg. reflexivity.
Qed.

Lemma TMATRIX_dagger_value :
  T (conj _TMATRIX) =
  [ [RtoC 1; RtoC 0];
    [RtoC 0; (cos (- (PI / 4)), sin (- (PI / 4)))] ].
Proof.
  rewrite TMATRIX_value. cbn [conj map T zip_with].
  rewrite !Cconj_RtoC, Cconj_expi. reflexivity.
Qed.

Lemma sin_PI4_pos : (0 < sin (PI / 4))%R.
Proof.
  apply sin_gt_0; pose proof PI_RGT_0; lra.
Qed.

(** The gate and its adjoint have different matrices. *)
Lemma TMATRIX_dagger_neq : T (conj _TMATRIX) <> _TMATRIX.
Proof.
  rewrite TMATRIX_dagger_value, TMATRIX_value. intros H.
  assert (E : sin (- (PI / 4)) = sin (PI / 4)) by congruence.
  rewrite sin_neg in E. pose proof sin_PI4_pos. lra.
Qed.

(** ** The monad *)

Lemma getitem_Some {St V} (d : gmap string V) (key : string) (v : V) (s : St) :
  d !! key = Some v -> getitem d key s = (inr v, s).
Proof.
  intros H. unfold getitem. rewrite H. reflexivity.
Qed.

Lemma getitem_None {St V} (d : gmap string V) (key : string) (s : St) :
  d !! key = None -> getitem d key s = (inl (KeyError key), s).
Proof.
  intros H. unfold getitem. rewrite H. reflexivity.
Qed.

Lemma bind_inr {St A B} (m : M St A) (k : A -> M St B) (s s' : St) (a : A) :
  m s = (inr a, s') -> bind m k s = k a s'.
Proof.
  intros H. unfold bind. rewrite H. reflexivity.
Qed.

Lemma bind_inl {St A B} (m : M St A) (k : A -> M St B) (s s' : St) (e : exn) :
  m s = (inl e, s') -> bind m k s = (inl e, s').
Proof.
  intros H. unfold bind. rewrite H. reflexivity.
Qed.

(** ** Tensor embedding *)

Section TensorEmbeddingFacts.

Context {SoquetT Tag : Type}.
Implicit Types (self : TGate) (tag : Tag) (tn : TensorNetwork SoquetT Tag).
Implicit Types (incoming outgoing : gmap string SoquetT).

(** With both legs present the call adds exactly the tensor written in
    the source, at the end of the network. *)
Lemma add_my_tensors_complete self tn tag incoming outgoing out_q in_q :
  outgoing !! "q" = Some out_q ->
  incoming !! "q" = Some in_q ->
  add_my_tensors self tag incoming outgoing tn =
  (inr tt,
   (tn ++ [mkTensor
             (if is_adjoint self then T (conj _TMATRIX) else _TMATRIX)
             (out_q, in_q) [inl (short_name self); inr tag]])%list).
Proof.
  intros Ho Hi. unfold add_my_tensors.
  rewrite (bind_inr _ _ tn tn out_q) by (apply getitem_Some, Ho).
  rewrite (bind_inr _ _ tn tn in_q) by (apply getitem_Some, Hi).
  reflexivity.
Qed.

(** A missing leg raises [KeyError('q')] and the network is as before. *)
Lemma add_my_tensors_incomplete self tn tag incoming outgoing :
  outgoing !! "q" = None \/ incoming !! "q" = None ->
  add_my_tensors self tag incoming outgoing tn = (inl (KeyError "q"), tn).
Proof.
  intros H. unfold add_my_tensors.
  destruct (outgoing !! "q") as [out_q|] eqn:Ho.
  - destruct H as [H|Hi]; [discriminate|].
    rewrite (bind_inr _ _ tn tn out_q) by (apply getitem_Some, Ho).
    apply bind_inl, getitem_None, Hi.
  - apply bind_inl, getitem_None, Ho.
Qed.

End TensorEmbeddingFacts.

(** ** Strings *)

Lemma append_String (c : Ascii.ascii) (s u : string) :
  String c s ++ u = String c (s ++ u).
Proof. reflexivity. Qed.

Lemma prefix_app (sub s : string) :
  String.prefix sub s = true <-> exists post, s = sub ++ post.
Proof.
  revert s. induction sub as [|c sub IH]; intros s.
  - split; [intros _; exists s; reflexivity | destruct s; reflexivity].
  - destruct s as [|d s]; simpl.
    + split; [discriminate | intros [post H]; discriminate].
    + destruct (Ascii.ascii_dec c d) as [->|Hne].
      * rewrite IH. split; intros [post H]; exists post;
          rewrite append_String in *; congruence.
      * split; [discriminate |].
        intros [post H]. rewrite append_String in H. congruence.
Qed.

(** [contains] finds exactly the strings that occur as a slice. *)
Lemma contains_app (sub s : string) :
  contains sub s = true <-> exists pre post, s = pre ++ sub ++ post.
Proof.
  induction s as [|c s IH].
  - cbn [contains]. rewrite orb_false_r, prefix_app. split.
    + intros [post H]. exists "", post. exact H.
    + intros [pre [post H]]. destruct pre; [exists post; exact H | discriminate].
  - cbn [contains]. rewrite orb_true_iff, prefix_app, IH. split.
    + intros [[post H] | [pre [post H]]].
      * exists "", post. exact H.
      * exists (String c pre), post. rewrite append_String. congruence.
    + intros [pre [post H]]. destruct pre as [|d pre].
      * left. exists post. exact H.
      * right. exists pre, post. rewrite append_String in H. congruence.
Qed.

(** ** cirq *)

Lemma cirq_unitary_ZPowGate (e : R) :
  cirq_unitary (ZPowGate e) =
  [ [RtoC 1; RtoC 0];
    [RtoC 0; (cos (PI * e), sin (PI * e))] ].
Proof.
  unfold cirq_unitary.
  replace (Cmult Ci (RtoC (PI * e))) with (0%R, (PI * e)%R).
  - rewrite Cexp_imaginary. reflexivity.
  - unfold Cmult, Ci, RtoC; simpl. f_equal; lra.
Qed.

(** [cirq.T] has the matrix of the class docstring, which is [_TMATRIX]. *)
Lemma cirq_unitary_T : cirq_unitary cirq_T = _TMATRIX.
Proof.
  unfold cirq_T. rewrite cirq_unitary_ZPowGate, TMATRIX_value.
  replace (PI * (1 / 4))%R with (PI / 4)%R by field. reflexivity.
Qed.

(** [cirq.T**-1] has the matrix of the adjoint. *)
Lemma cirq_unitary_T_inverse :
  cirq_unitary (cirq_inverse cirq_T) = T (conj _TMATRIX).
Proof.
  unfold cirq_T, cirq_inverse.
  rewrite cirq_unitary_ZPowGate, TMATRIX_dagger_value.
  replace (PI * - (1 / 4))%R with (- (PI / 4))%R by field. reflexivity.
Qed.

(** The unpacking accepts one handle only. *)
Lemma as_cirq_op_wrong_length
    {Qid QubitManager : Type} (self : TGate) (qm : QubitManager)
    (q : list Qid) :
  length q <> 1 -> as_cirq_op self qm q = inl ValueError.
Proof.
  destruct q as [|q0 [|q1 q]]; simpl; intros H;
    [reflexivity | contradiction | reflexivity].
Qed.

(** ** Objects *)

Lemma alloc_fresh (v : TGate) (h : Objects.store) (a : nat) (x : TGate) :
  h !! a = Some x ->
  fst (Objects.alloc v h) <> a /\
  snd (Objects.alloc v h) !! a = Some x /\
  snd (Objects.alloc v h) !! fst (Objects.alloc v h) = Some v.
Proof.
  intros H. unfold Objects.alloc, Objects.store in *; simpl.
  pose proof (lookup_lt_Some _ _ _ H) as Hlt.
  split; [lia|]. split.
  - rewrite lookup_app_l by exact Hlt. exact H.
  - rewrite lookup_app_r by lia. rewrite Nat.sub_diag. reflexivity.
Qed.

Lemma adjoint_involutive (x : TGate) : adjoint (adjoint x) = x.
Proof.
  destruct x as [b]. unfold adjoint, attrs_evolve; simpl.
  rewrite negb_involutive. reflexivity.
Qed.

Lemma TGate_eq_refl (x : TGate) : TGate_eq x x = true.
Proof.
  unfold TGate_eq. apply eqb_reflx.
Qed.

(** * The claims *)

(** C1: [as_cirq_op] on a one-element collection [[q0]] returns the
    mapping [{"q": [q0]}] together with [cirq.T(q0)], whatever
    [is_adjoint] is.  For [is_adjoint = True] the result is therefore the
    same as for the base gate: the operation's matrix is [_TMATRIX], not
    the conjugate transpose that the tensor embedding uses for the
    adjoint, although cirq offers the operation with that matrix
    ([cirq.T**-1]). *)
Theorem as_cirq_op_adjoint_returns_base_op
    {Qid QubitManager : Type} (qubit_manager : QubitManager) (q0 : Qid) :
  as_cirq_op (mkTGate true) qubit_manager [q0] =
    inr (GateOperation cirq_T [q0], {[ "q" := [q0] ]}) /\
  as_cirq_op (mkTGate true) qubit_manager [q0] =
    as_cirq_op (mkTGate false) qubit_manager [q0] /\
  cirq_unitary cirq_T = _TMATRIX /\
  cirq_unitary cirq_T <> T (conj _TMATRIX) /\
  cirq_unitary (cirq_inverse cirq_T) = T (conj _TMATRIX).
Proof.
  split; [reflexivity|]. split; [reflexivity|].
  split; [apply cirq_unitary_T|]. split.
  - rewrite cirq_unitary_T. intros H. symmetry in H.
    exact (TMATRIX_dagger_neq H).
  - apply cirq_unitary_T_inverse.
Qed.

(** C2: for every boolean [b] and every instance [TGate(is_adjoint=b)],
    [adjoint()] returns a new object whose flag is [not b] and leaves the
    instance it was called on as it was; calling [adjoint()] on the
    result gives an object that is equal to the original, both under the
    generated [__eq__] and attribute by attribute. *)
Theorem adjoint_round_trip (b : bool) (h : Objects.store) (self : nat) :
  h !! self = Some (TGate_init (Some b)) ->
  exists (self1 : nat) (h1 : Objects.store) (self2 : nat) (h2 : Objects.store)
         (y : TGate),
    Objects.adjoint self h = Some (self1, h1) /\
    self1 <> self /\
    h1 !! self1 = Some (mkTGate (negb b)) /\
    h1 !! self = Some (TGate_init (Some b)) /\
    Objects.adjoint self1 h1 = Some (self2, h2) /\
    h2 !! self2 = Some y /\
    TGate_eq y (TGate_init (Some b)) = true /\
    y = TGate_init (Some b) /\
    y = adjoint (adjoint (TGate_init (Some b))) /\
    h2 !! self = Some (TGate_init (Some b)).
Proof.
  intros H. set (x := TGate_init (Some b)) in *.
  destruct (alloc_fresh (adjoint x) h self x H) as (Hne & Hold & Hnew).
  destruct (Objects.alloc (adjoint x) h) as [self1 h1] eqn:E1.
  simpl in Hne, Hold, Hnew.
  destruct (alloc_fresh (adjoint (adjoint x)) h1 self1 _ Hnew)
    as (_ & _ & Hnew2).
  destruct (alloc_fresh (adjoint (adjoint x)) h1 self x Hold)
    as (_ & Hold2 & _).
  destruct (Objects.alloc (adjoint (adjoint x)) h1) as [self2 h2] eqn:E2.
  simpl in Hnew2, Hold2.
  exists self1, h1, self2, h2, (adjoint (adjoint x)).
  repeat split; try assumption.
  - unfold Objects.adjoint. rewrite H. simpl. rewrite E1. reflexivity.
  - unfold Objects.adjoint. rewrite Hnew. simpl. rewrite E2. reflexivity.
  - rewrite adjoint_involutive. apply TGate_eq_refl.
  - apply adjoint_involutive.
Qed.

Lemma adjoint_round_trip_witness :
  exists (self1 : nat) (h1 : Objects.store) (self2 : nat) (h2 : Objects.store)
         (y : TGate),
    Objects.adjoint 0 [mkTGate true] = Some (self1, h1) /\
    self1 <> 0 /\
    h1 !! self1 = Some (mkTGate (negb true)) /\
    h1 !! 0 = Some (TGate_init (Some true)) /\
    Objects.adjoint self1 h1 = Some (self2, h2) /\
    h2 !! self2 = Some y /\
    TGate_eq y (TGate_init (Some true)) = true /\
    y = TGate_init (Some true) /\
    y = adjoint (adjoint (TGate_init (Some true))) /\
    h2 !! 0 = Some (TGate_init (Some true)).
Proof.
  apply (adjoint_round_trip true [mkTGate true] 0). reflexivity.
Defined.

(** C3: when both mappings have an entry for [q], the call adds one
    tensor to the network, and its data is [[1, 0], [0, exp(i pi/4)]] for
    the gate and [[1, 0], [0, exp(-i pi/4)]], the conjugate transpose, for
    the adjoint. *)
Theorem add_my_tensors_data
    {SoquetT Tag : Type} (self : TGate) (tn : TensorNetwork SoquetT Tag)
    (tag : Tag) (incoming outgoing : gmap string SoquetT)
    (out_q in_q : SoquetT) :
  outgoing !! "q" = Some out_q ->
  incoming !! "q" = Some in_q ->
  exists tensor : Tensor SoquetT Tag,
    add_my_tensors self tag incoming outgoing tn =
      (inr tt, (tn ++ [tensor])%list) /\
    data tensor =
      (if is_adjoint self
       then [ [RtoC 1; RtoC 0];
              [RtoC 0; (cos (- (PI / 4)), sin (- (PI / 4)))] ]
       else [ [RtoC 1; RtoC 0];
              [RtoC 0; (cos (PI / 4), sin (PI / 4))] ]) /\
    data tensor = (if is_adjoint self then T (conj _TMATRIX) else _TMATRIX).
Proof.
  intros Ho Hi. eexists. split.
  - apply add_my_tensors_complete; eassumption.
  - simpl. split; [|reflexivity].
    destruct (is_adjoint self).
    + apply TMATRIX_dagger_value.
    + apply TMATRIX_value.
Qed.

Lemma add_my_tensors_data_witness :
  exists tensor : Tensor nat string,
    add_my_tensors (mkTGate true) "tag" {[ "q" := 0 ]} {[ "q" := 1 ]} [] =
      (inr tt, ([] ++ [tensor])%list) /\
    data tensor =
      (if is_adjoint (mkTGate true)
       then [ [RtoC 1; RtoC 0];
              [RtoC 0; (cos (- (PI / 4)), sin (- (PI / 4)))] ]
       else [ [RtoC 1; RtoC 0];
              [RtoC 0; (cos (PI / 4), sin (PI / 4))] ]) /\
    data tensor =
      (if is_adjoint (mkTGate true) then T (conj _TMATRIX) else _TMATRIX).
Proof.
  apply (add_my_tensors_data (mkTGate true) [] "tag"
           {[ "q" := 0 ]} {[ "q" := 1 ]} 1 0); reflexivity.
Defined.

(** C4: when both mappings have an entry for [q], the indices of the
    tensor that is added are the pair (outgoing leg of [q], incoming leg
    of [q]), in this order. *)
Theorem add_my_tensors_inds_order
    {SoquetT Tag : Type} (self : TGate) (tn : TensorNetwork SoquetT Tag)
    (tag : Tag) (incoming outgoing : gmap string SoquetT)
    (out_q in_q : SoquetT) :
  outgoing !! "q" = Some out_q ->
  incoming !! "q" = Some in_q ->
  exists tensor : Tensor SoquetT Tag,
    add_my_tensors self tag incoming outgoing tn =
      (inr tt, (tn ++ [tensor])%list) /\
    inds tensor = (out_q, in_q) /\
    fst (inds tensor) = out_q /\ snd (inds tensor) = in_q.
Proof.
  intros Ho Hi. eexists. split.
  - apply add_my_tensors_complete; eassumption.
  - simpl. repeat split.
Qed.

Lemma add_my_tensors_inds_order_witness :
  exists tensor : Tensor nat string,
    add_my_tensors (mkTGate false) "tag" {[ "q" := 7 ]} {[ "q" := 8 ]} [] =
      (inr tt, ([] ++ [tensor])%list) /\
    inds tensor = (8, 7) /\
    fst (inds tensor) = 8 /\ snd (inds tensor) = 7.
Proof.
  apply (add_my_tensors_inds_order (mkTGate false) [] "tag"
           {[ "q" := 7 ]} {[ "q" := 8 ]} 8 7); reflexivity.
Defined.

(** C5: for either value of [is_adjoint] the cost reporter returns the
    structure that counts one T gate, and the result is the same for the
    gate and for its adjoint. *)
Theorem t_complexity_one_T (b : bool) :
  t (_t_complexity_ (mkTGate b)) = 1%Z /\
  _t_complexity_ (mkTGate b) = mkTComplexity 1 /\
  _t_complexity_ (mkTGate b) = _t_complexity_ (mkTGate (negb b)) /\
  _t_complexity_ (mkTGate true) = _t_complexity_ (mkTGate false).
Proof.
  repeat split.
Qed.

(** C6: for either value of [is_adjoint] the signature has exactly one
    register, named [q], of bit-width 1, and the two signatures are
    equal. *)
Theorem signature_single_q_register (b : bool) :
  signature (mkTGate b) = [mkRegister "q" 1] /\
  length (signature (mkTGate b)) = 1 /\
  name <$> signature (mkTGate b) = ["q"] /\
  bitsize <$> signature (mkTGate b) = [1%Z] /\
  signature (mkTGate false) = signature (mkTGate true).
Proof.
  repeat split.
Qed.

(** C7: [pretty_name] is ["T"] for the gate and ["T†"], the base symbol
    followed by a dagger, for the adjoint. *)
Theorem pretty_name_values :
  pretty_name (mkTGate false) = "T" /\
  pretty_name (mkTGate true) = "T†" /\
  pretty_name (mkTGate true) = pretty_name (mkTGate false) ++ "†".
Proof.
  repeat split.
Qed.

(** C8: [__str__] of the adjoint is ["TGate(is_adjoint=True)"], in which
    the marker [is_adjoint=True] occurs; [__str__] of the gate is
    ["TGate()"], in which neither [is_adjoint=False] nor [is_adjoint] nor
    [adjoint] occurs. *)
Theorem str_adjoint_marker :
  __str__ (mkTGate true) = "TGate(is_adjoint=True)" /\
  contains "is_adjoint=True" (__str__ (mkTGate true)) = true /\
  (exists pre post,
     __str__ (mkTGate true) = pre ++ "is_adjoint=True" ++ post) /\
  __str__ (mkTGate false) = "TGate()" /\
  contains "is_adjoint=False" (__str__ (mkTGate false)) = false /\
  contains "is_adjoint" (__str__ (mkTGate false)) = false /\
  contains "adjoint" (__str__ (mkTGate false)) = false /\
  ~ (exists pre post, __str__ (mkTGate false) = pre ++ "adjoint" ++ post).
Proof.
  split; [reflexivity|]. split; [reflexivity|].
  split; [apply contains_app; reflexivity|].
  split; [reflexivity|]. split; [reflexivity|]. split; [reflexivity|].
  split; [reflexivity|].
  intros H. apply contains_app in H. discriminate H.
Qed.

(** C9: when the outgoing or the incoming mapping has no entry for [q],
    the call ends with [KeyError('q')] and the network is the one that
    was passed in: nothing was added. *)
Theorem add_my_tensors_missing_leg
    {SoquetT Tag : Type} (self : TGate) (tn : TensorNetwork SoquetT Tag)
    (tag : Tag) (incoming outgoing : gmap string SoquetT) :
  outgoing !! "q" = None \/ incoming !! "q" = None ->
  add_my_tensors self tag incoming outgoing tn = (inl (KeyError "q"), tn) /\
  snd (add_my_tensors self tag incoming outgoing tn) = tn.
Proof.
  intros H. rewrite (add_my_tensors_incomplete self tn tag _ _ H).
  split; reflexivity.
Qed.

Lemma add_my_tensors_missing_leg_witness :
  add_my_tensors (mkTGate false) "tag" {[ "p" := 3 ]} {[ "q" := 4 ]}
      [mkTensor _TMATRIX (1, 0) [inl "T"; inr "old"]] =
    (inl (KeyError "q"), [mkTensor _TMATRIX (1, 0) [inl "T"; inr "old"]]) /\
  snd (add_my_tensors (mkTGate false) "tag" {[ "p" := 3 ]} {[ "q" := 4 ]}
         [mkTensor _TMATRIX (1, 0) [inl "T"; inr "old"]]) =
    [mkTensor _TMATRIX (1, 0) [inl "T"; inr "old"]].
Proof.
  apply (add_my_tensors_missing_leg (mkTGate false)
           [mkTensor _TMATRIX (1, 0) [inl "T"; inr "old"]] "tag"
           {[ "p" := 3 ]} {[ "q" := 4 ]}).
  right. reflexivity.
Defined.

(** C10: [TGate()] is [TGate(is_adjoint=False)], under the generated
    [__eq__] and attribute by attribute, and the example factory
    [_t_gate] returns this instance. *)
Theorem default_is_not_adjoint :
  TGate_init None = TGate_init (Some false) /\
  TGate_eq (TGate_init None) (TGate_init (Some false)) = true /\
  is_adjoint (TGate_init None) = false /\
  _t_gate = TGate_init None /\
  TGate_eq _t_gate (TGate_init (Some false)) = true.
Proof.
  repeat split.
Qed.

(** * Further properties *)

(** ** Matrix products *)

Ltac Ceq :=
  unfold Cplus, Cmult, Cconj, RtoC, Ci; cbn [fst snd]; f_equal; ring.

Example matmul_2x2 (a b c d e f g h : C) :
  matmul [ [a; b]; [c; d] ] [ [e; f]; [g; h] ] =
  [ [Cplus (Cmult a e) (Cplus (Cmult b g) (RtoC 0));
     Cplus (Cmult a f) (Cplus (Cmult b h) (RtoC 0))];
    [Cplus (Cmult c e) (Cplus (Cmult d g) (RtoC 0));
     Cplus (Cmult c f) (Cplus (Cmult d h) (RtoC 0))] ].
Proof. reflexivity. Qed.

(** Diagonal matrices multiply entry by entry. *)
Lemma matmul_diag (a b c d : C) :
  matmul [ [a; RtoC 0]; [RtoC 0; b] ] [ [c; RtoC 0]; [RtoC 0; d] ] =
  [ [Cmult a c; RtoC 0]; [RtoC 0; Cmult b d] ].
Proof.
  rewrite matmul_2x2. repeat (f_equal; try Ceq).
Qed.

Lemma Cmult_1_1 : Cmult (RtoC 1) (RtoC 1) = RtoC 1.
Proof. Ceq. Qed.

Lemma Cconj_involutive (z : C) : Cconj (Cconj z) = z.
Proof.
  destruct z as [x y]. unfold Cconj; cbn [fst snd]. f_equal; ring.
Qed.

(** A number on the unit circle times its conjugate is 1. *)
Lemma Cmult_expi_conj (y : R) :
  Cmult (cos y, sin y) (cos (- y), sin (- y)) = RtoC 1 /\
  Cmult (cos (- y), sin (- y)) (cos y, sin y) = RtoC 1.
Proof.
  rewrite cos_neg, sin_neg. pose proof (sin2_cos2 y) as H. unfold Rsqr in H.
  unfold Cmult, RtoC; cbn [fst snd]. split; f_equal; lra.
Qed.

(** exp(i pi/4) squared is i, and i squared is -1. *)
Lemma expi_PI4_square :
  Cmult (cos (PI / 4), sin (PI / 4)) (cos (PI / 4), sin (PI / 4)) = Ci.
Proof.
  rewrite sin_cos_PI4.
  pose proof (sin2_cos2 (PI / 4)) as H. rewrite sin_cos_PI4 in H.
  unfold Rsqr in H. unfold Cmult, Ci; cbn [fst snd]. f_equal; lra.
Qed.

Lemma Ci_square : Cmult Ci Ci = RtoC (-1).
Proof. Ceq. Qed.

(** The conjugate transpose undoes itself on [_TMATRIX]. *)
Lemma TMATRIX_dagger_dagger : T (conj (T (conj _TMATRIX))) = _TMATRIX.
Proof.
  rewrite TMATRIX_dagger_value, TMATRIX_value. cbn [conj map T zip_with].
  rewrite !Cconj_RtoC, Cconj_expi, Ropp_involutive. reflexivity.
Qed.

(** [_TMATRIX] is unitary. *)
Lemma TMATRIX_unitary :
  matmul _TMATRIX (T (conj _TMATRIX)) = [ [RtoC 1; RtoC 0]; [RtoC 0; RtoC 1] ] /\
  matmul (T (conj _TMATRIX)) _TMATRIX = [ [RtoC 1; RtoC 0]; [RtoC 0; RtoC 1] ].
Proof.
  rewrite TMATRIX_dagger_value, TMATRIX_value, !matmul_diag, Cmult_1_1.
  destruct (Cmult_expi_conj (PI / 4)) as [-> ->]. split; reflexivity.
Qed.

(** ** Translation to cirq *)

(** X1: [as_cirq_op] returns a result exactly for a collection of one
    qubit handle; on every other length, the empty collection included,
    the unpacking raises [ValueError]. *)
Theorem as_cirq_op_one_handle_only
    {Qid QubitManager : Type} (self : TGate) (qubit_manager : QubitManager)
    (q : list Qid) :
  (as_cirq_op self qubit_manager q = inl ValueError <-> length q <> 1) /\
  ((exists r, as_cirq_op self qubit_manager q = inr r) <-> length q = 1).
Proof.
  destruct q as [|q0 [|q1 q]]; simpl; split; split;
    try (intros [r H]); try intros H;
    try discriminate; try reflexivity; try contradiction.
  eexists; reflexivity.
Qed.

(** X2: whenever [as_cirq_op] returns, the operation acts on the handles
    that were passed in, and the mapping has the single key [q], bound to
    the same handles. *)
Theorem as_cirq_op_threads_handles
    {Qid QubitManager : Type} (self : TGate) (qubit_manager : QubitManager)
    (q : list Qid) (op : cirq_Operation Qid) (m : gmap string (list Qid)) :
  as_cirq_op self qubit_manager q = inr (op, m) ->
  qubits op = q /\ m !! "q" = Some q /\ dom m = {[ "q" ]}.
Proof.
  destruct q as [|q0 [|q1 q]]; simpl; intros H; try discriminate.
  injection H as <- <-. simpl. split; [reflexivity|]. split.
  - apply lookup_singleton_eq.
  - apply dom_singleton_L.
Qed.

Lemma as_cirq_op_threads_handles_witness :
  qubits (GateOperation cirq_T [5]) = [5] /\
  ({[ "q" := [5] ]} : gmap string (list nat)) !! "q" = Some [5] /\
  dom ({[ "q" := [5] ]} : gmap string (list nat)) = {[ "q" ]}.
Proof.
  apply (as_cirq_op_threads_handles (mkTGate true) tt [5]). reflexivity.
Defined.

(** X3: the register names of the signature are exactly the keys of the
    mapping that [as_cirq_op] returns. *)
Theorem as_cirq_op_keys_are_registers
    {Qid QubitManager : Type} (self : TGate) (qubit_manager : QubitManager)
    (q : list Qid) (op : cirq_Operation Qid) (m : gmap string (list Qid)) :
  as_cirq_op self qubit_manager q = inr (op, m) ->
  dom m = list_to_set (name <$> signature self).
Proof.
  destruct q as [|q0 [|q1 q]]; simpl; intros H; try discriminate.
  injection H as <- <-. rewrite dom_singleton_L. simpl.
  rewrite union_empty_r_L. reflexivity.
Qed.

Lemma as_cirq_op_keys_are_registers_witness :
  dom ({[ "q" := [5] ]} : gmap string (list nat)) =
  list_to_set (name <$> signature (mkTGate false)).
Proof.
  apply (as_cirq_op_keys_are_registers (mkTGate false) tt [5]
           (GateOperation cirq_T [5])).
  reflexivity.
Defined.

(** ** Tensor embedding *)

(** The two ways a call can end. *)
Lemma add_my_tensors_cases
    {SoquetT Tag : Type} (self : TGate) (tn : TensorNetwork SoquetT Tag)
    (tag : Tag) (incoming outgoing : gmap string SoquetT) :
  (exists out_q in_q,
     outgoing !! "q" = Some out_q /\ incoming !! "q" = Some in_q /\
     add_my_tensors self tag incoming outgoing tn =
       (inr tt,
        (tn ++ [mkTensor
                  (if is_adjoint self then T (conj _TMATRIX) else _TMATRIX)
                  (out_q, in_q) [inl (short_name self); inr tag]])%list)) \/
  ((outgoing !! "q" = None \/ incoming !! "q" = None) /\
   add_my_tensors self tag incoming outgoing tn = (inl (KeyError "q"), tn)).
Proof.
  destruct (outgoing !! "q") as [out_q|] eqn:Ho;
    [destruct (incoming !! "q") as [in_q|] eqn:Hi|].
  - left. exists out_q, in_q. split; [reflexivity|]. split; [reflexivity|].
    apply add_my_tensors_complete; assumption.
  - right. split; [right; reflexivity|].
    apply add_my_tensors_incomplete. right. exact Hi.
  - right. split; [left; reflexivity|].
    apply add_my_tensors_incomplete. left. exact Ho.
Qed.



(** X6: only the key [q] of the two mappings is read: mappings that
    agree on [q] give the same outcome, whatever other entries they
    hold. *)
Theorem add_my_tensors_reads_only_q
    {SoquetT Tag : Type} (self : TGate) (tn : TensorNetwork SoquetT Tag)
    (tag : Tag) (incoming outgoing incoming' outgoing' : gmap string SoquetT) :
  outgoing !! "q" = outgoing' !! "q" ->
  incoming !! "q" = incoming' !! "q" ->
  add_my_tensors self tag incoming outgoing tn =
  add_my_tensors self tag incoming' outgoing' tn.
Proof.
  intros Ho Hi. unfold add_my_tensors, bind, getitem.
  rewrite Ho, Hi. reflexivity.
Qed.

Lemma add_my_tensors_reads_only_q_witness :
  add_my_tensors (mkTGate true) "tag"
    {[ "q" := 1 ]} {[ "q" := 2 ]} ([] : TensorNetwork nat string) =
  add_my_tensors (mkTGate true) "tag"
    (<[ "ctrl" := 3 ]> {[ "q" := 1 ]}) (<[ "anc" := 4 ]> {[ "q" := 2 ]}) [].
Proof.
  apply (add_my_tensors_reads_only_q (mkTGate true) [] "tag"
           {[ "q" := 1 ]} {[ "q" := 2 ]}
           (<[ "ctrl" := 3 ]> {[ "q" := 1 ]})
           (<[ "anc" := 4 ]> {[ "q" := 2 ]})); reflexivity.
Defined.

(** The matrix chosen for the adjoint descriptor is the conjugate
    transpose of the one chosen for the descriptor, for either flag. *)
Lemma adjoint_matrix (self : TGate) :
  (if is_adjoint (adjoint self) then T (conj _TMATRIX) else _TMATRIX) =
  T (conj (if is_adjoint self then T (conj _TMATRIX) else _TMATRIX)).
Proof.
  destruct self as [[|]]; simpl.
  - symmetry. apply TMATRIX_dagger_dagger.
  - reflexivity.
Qed.

(** The matrix of a descriptor times the matrix of its adjoint is the
    identity, in both orders. *)
Lemma adjoint_matrix_inverse (self : TGate) :
  matmul (if is_adjoint (adjoint self) then T (conj _TMATRIX) else _TMATRIX)
         (if is_adjoint self then T (conj _TMATRIX) else _TMATRIX) =
    [ [RtoC 1; RtoC 0]; [RtoC 0; RtoC 1] ] /\
  matmul (if is_adjoint self then T (conj _TMATRIX) else _TMATRIX)
         (if is_adjoint (adjoint self) then T (conj _TMATRIX) else _TMATRIX) =
    [ [RtoC 1; RtoC 0]; [RtoC 0; RtoC 1] ].
Proof.
  destruct TMATRIX_unitary as [H1 H2].
  destruct self as [[|]]; simpl; split; assumption.
Qed.

(** X7: with complete mappings, the tensor added for [self.adjoint()]
    holds the conjugate transpose of the data added for [self], and the
    other way round, whichever flag [self] has. *)
Theorem add_my_tensors_adjoint_data
    {SoquetT Tag : Type} (self : TGate) (tn : TensorNetwork SoquetT Tag)
    (tag : Tag) (incoming outgoing : gmap string SoquetT)
    (out_q in_q : SoquetT) :
  outgoing !! "q" = Some out_q ->
  incoming !! "q" = Some in_q ->
  exists tensor tensor' : Tensor SoquetT Tag,
    add_my_tensors self tag incoming outgoing tn =
      (inr tt, (tn ++ [tensor])%list) /\
    add_my_tensors (adjoint self) tag incoming outgoing tn =
      (inr tt, (tn ++ [tensor'])%list) /\
    data tensor' = T (conj (data tensor)) /\
    data tensor = T (conj (data tensor')).
Proof.
  intros Ho Hi. eexists. eexists.
  split; [apply add_my_tensors_complete; eassumption|].
  split; [apply add_my_tensors_complete; eassumption|].
  simpl. split.
  - apply adjoint_matrix.
  - rewrite <- (adjoint_involutive self) at 1. apply adjoint_matrix.
Qed.

Lemma add_my_tensors_adjoint_data_witness :
  exists tensor tensor' : Tensor nat string,
    add_my_tensors (mkTGate true) "tag" {[ "q" := 0 ]} {[ "q" := 1 ]} [] =
      (inr tt, ([] ++ [tensor])%list) /\
    add_my_tensors (adjoint (mkTGate true)) "tag"
        {[ "q" := 0 ]} {[ "q" := 1 ]} [] =
      (inr tt, ([] ++ [tensor'])%list) /\
    data tensor' = T (conj (data tensor)) /\
    data tensor = T (conj (data tensor')).
Proof.
  apply (add_my_tensors_adjoint_data (mkTGate true) [] "tag"
           {[ "q" := 0 ]} {[ "q" := 1 ]} 1 0); reflexivity.
Defined.




(** X10: for a descriptor with [is_adjoint = False], the two backends
    agree: the unitary of the operation from [as_cirq_op] is the data of
    the tensor from [add_my_tensors]. *)
Theorem backends_agree_on_base_gate
    {Qid QubitManager SoquetT Tag : Type} (self : TGate)
    (qubit_manager : QubitManager) (q0 : Qid)
    (tn : TensorNetwork SoquetT Tag) (tag : Tag)
    (incoming outgoing : gmap string SoquetT) (out_q in_q : SoquetT) :
  is_adjoint self = false ->
  outgoing !! "q" = Some out_q ->
  incoming !! "q" = Some in_q ->
  exists (op : cirq_Operation Qid) (m : gmap string (list Qid))
         (tensor : Tensor SoquetT Tag),
    as_cirq_op self qubit_manager [q0] = inr (op, m) /\
    add_my_tensors self tag incoming outgoing tn =
      (inr tt, (tn ++ [tensor])%list) /\
    cirq_unitary (gate op) = data tensor.
Proof.
  intros Hb Ho Hi. eexists. eexists. eexists.
  split; [reflexivity|].
  split; [apply add_my_tensors_complete; eassumption|].
  simpl. rewrite Hb. apply cirq_unitary_T.
Qed.

Lemma backends_agree_on_base_gate_witness :
  exists (op : cirq_Operation nat) (m : gmap string (list nat))
         (tensor : Tensor nat string),
    as_cirq_op (mkTGate false) tt [5] = inr (op, m) /\
    add_my_tensors (mkTGate false) "tag" {[ "q" := 0 ]} {[ "q" := 1 ]} [] =
      (inr tt, ([] ++ [tensor])%list) /\
    cirq_unitary (gate op) = data tensor.
Proof.
  apply (backends_agree_on_base_gate (mkTGate false) tt 5 [] "tag"
           {[ "q" := 0 ]} {[ "q" := 1 ]} 1 0); reflexivity.
Defined.

(** ** The descriptor *)

(** X11: [adjoint] never returns a descriptor equal to its receiver, and
    it keeps descriptors apart: two adjoints are equal under [__eq__]
    exactly when the descriptors are. *)
Theorem adjoint_no_fixed_point (x y : TGate) :
  TGate_eq (adjoint x) x = false /\
  adjoint x <> x /\
  TGate_eq (adjoint x) (adjoint y) = TGate_eq x y.
Proof.
  destruct x as [[|]], y as [[|]]; repeat split; try reflexivity; discriminate.
Qed.

(** X12: both renderings tell the gate from its adjoint: descriptors
    with the same [pretty_name], or the same [__str__], are equal. *)
Theorem renderings_injective (x y : TGate) :
  (pretty_name x = pretty_name y <-> x = y) /\
  (__str__ x = __str__ y <-> x = y).
Proof.
  destruct x as [[|]], y as [[|]]; repeat split;
    try reflexivity; intros H; discriminate H.
Qed.

(** X13: the wire symbol is the box with the text of [pretty_name],
    whichever soquet it is drawn for; the symbols of two descriptors are
    the same only for equal descriptors. *)
Theorem wire_symbol_label {Soquet : Type} (x y : TGate) (soq soq' : Soquet) :
  text (wire_symbol x soq) = pretty_name x /\
  wire_symbol x soq = wire_symbol x soq' /\
  (wire_symbol x soq = wire_symbol y soq' <-> x = y).
Proof.
  split; [reflexivity|]. split; [reflexivity|].
  destruct x as [[|]], y as [[|]]; split;
    try reflexivity; intros H; discriminate H.
Qed.

(** X14: [adjoint()] on an allocated instance only extends the store:
    the result is the next unused address, every object that was there
    is still there with the same attributes, and exactly one object was
    created. *)
Theorem Objects_adjoint_frame (self : nat) (h h' : Objects.store) (a : nat) :
  Objects.adjoint self h = Some (a, h') ->
  a = length h /\ length h' = S (length h) /\ take (length h) h' = h /\
  self < length h.
Proof.
  unfold Objects.adjoint, Objects.alloc.
  destruct (h !! self) as [x|] eqn:E; simpl; intros H; [|discriminate].
  injection H as <- <-. rewrite length_app, take_app_length. simpl.
  split; [reflexivity|]. split; [lia|]. split; [reflexivity|].
  eapply lookup_lt_Some. exact E.
Qed.

Lemma Objects_adjoint_frame_witness :
  1 = length [mkTGate false] /\
  length [mkTGate false; mkTGate true] = S (length [mkTGate false]) /\
  take (length [mkTGate false]) [mkTGate false; mkTGate true] = [mkTGate false] /\
  0 < length [mkTGate false].
Proof.
  apply (Objects_adjoint_frame 0 [mkTGate false]
           [mkTGate false; mkTGate true] 1).
  reflexivity.
Defined.


